(** * AHCI bring-up driver (src/drivers/ahci.c): a shallow embedding.

    The adapter register block, the scratch memory and the command headers
    all live in one byte-addressed physical memory.  Volatile register
    accesses are recorded in an access trace; kprintf appends to a log.
    The hardware-owned bits of a register are given by a read overlay [hw]:
    a read of the 32-bit word at address [a] at time [clk] returns
    [hw a clk raw] where [raw] is the stored value.  [hw_plain] is a
    register file that returns what was stored (an idle adapter). *)

From Stdlib Require Import ZArith String List Lia Bool.
Import ListNotations.
Open Scope Z_scope.

(** ** Constants of ahci.c *)

Definition SATA_SIG_ATA : Z := 0x00000101.
Definition SATA_SIG_ATAPI : Z := 0xEB140101.
Definition SATA_SIG_SEMB : Z := 0xC33C0101.
Definition SATA_SIG_PM : Z := 0x96690101.

(** The [AHCI_DEV_*] codes, as a closed enumeration. *)
Inductive ahci_dev := AHCI_DEV_NULL | AHCI_DEV_SATA | AHCI_DEV_SEMB
                    | AHCI_DEV_PM | AHCI_DEV_SATAPI.

Definition ahci_dev_eqb (x y : ahci_dev) : bool :=
  match x, y with
  | AHCI_DEV_NULL, AHCI_DEV_NULL | AHCI_DEV_SATA, AHCI_DEV_SATA
  | AHCI_DEV_SEMB, AHCI_DEV_SEMB | AHCI_DEV_PM, AHCI_DEV_PM
  | AHCI_DEV_SATAPI, AHCI_DEV_SATAPI => true
  | _, _ => false
  end.

Definition HBA_PORT_IPM_ACTIVE : Z := 1.
Definition HBA_PORT_DET_PRESENT : Z := 3.

Definition AHCI_BASE : Z := 0x400000.

(** ** Register layout (drivers/ahci.h)

    [hba_mem_t] and [hba_port_t] overlay the memory-mapped register block
    of the adapter, so their field offsets are those the AHCI 1.3
    register map fixes: [pi] at 0x0C, the 32 port blocks at 0x100 with a
    0x80 stride; in a port block [clb] 0x00, [clbu] 0x04, [fb] 0x08,
    [fbu] 0x0C, [cmd] 0x18, [sig] 0x24, [ssts] 0x28.  A command header
    [hba_cmd_header_t] is 32 bytes: [prdtl] (16 bit) at 2, [ctba] at 8,
    [ctbau] at 12. *)

Definition HBA_PI : Z := 0x0C.
Definition HBA_PORTS : Z := 0x100.
Definition HBA_PORT_SIZE : Z := 0x80.

Definition PORT_CLB : Z := 0x00.
Definition PORT_CLBU : Z := 0x04.
Definition PORT_FB : Z := 0x08.
Definition PORT_FBU : Z := 0x0C.
Definition PORT_CMD : Z := 0x18.
Definition PORT_SIG : Z := 0x24.
Definition PORT_SSTS : Z := 0x28.

Definition CMD_HEADER_SIZE : Z := 32.
Definition HDR_PRDTL : Z := 2.
Definition HDR_CTBA : Z := 8.
Definition HDR_CTBAU : Z := 12.

(** [&hba_addr->ports[i]] *)
Definition port_addr (hba : Z) (i : Z) : Z := hba + HBA_PORTS + i * HBA_PORT_SIZE.

(** ** Memory, trace and machine state *)

Definition memory := Z -> Z.

Definition mem_store8 (m : memory) (a v : Z) : memory :=
  fun a' => if Z.eqb a' a then Z.land v 255 else m a'.

Definition mem_load (m : memory) (a : Z) (n : nat) : Z :=
  fold_right (fun k acc => Z.lor (Z.shiftl (m (a + Z.of_nat k)) (8 * Z.of_nat k)) acc)
             0 (seq 0 n).

Fixpoint mem_store_bytes (m : memory) (a v : Z) (n : nat) : memory :=
  match n with
  | O => m
  | S n' => mem_store_bytes (mem_store8 m a v) (a + 1) (Z.shiftr v 8) n'
  end.

(** [memset(p, c, n)] *)
Definition mem_fill (m : memory) (a c n : Z) : memory :=
  fun a' => if (a <=? a') && (a' <? a + n) then Z.land c 255 else m a'.

Definition load32 (m : memory) (a : Z) : Z := mem_load m a 4.
Definition load16 (m : memory) (a : Z) : Z := mem_load m a 2.

Inductive event :=
| Rd (a v : Z)          (* volatile 32-bit read of the word at [a] *)
| Wr (a v : Z)          (* volatile 32-bit write *)
| Wr16 (a v : Z)        (* 16-bit store *)
| Fill (a c n : Z).     (* memset(a, c, n) *)

Record mach := Mach {
  mem : memory;
  clk : nat;            (* number of volatile reads so far *)
  trace : list event;
  log : list string
}.

(** ** A state-and-failure monad

    [None] means the program has not returned within the given fuel
    (a busy-wait loop still spinning). *)

Definition M (A : Type) := mach -> option (A * mach).

Definition ret {A} (x : A) : M A := fun s => Some (x, s).
Definition bind {A B} (m : M A) (k : A -> M B) : M B :=
  fun s => match m s with Some (x, s') => k x s' | None => None end.
Definition diverge {A} : M A := fun _ => None.

Notation "x <- m ;; k" := (bind m (fun x => k))
  (at level 61, m at next level, right associativity).
Notation "m ;;; k" := (bind m (fun _ => k))
  (at level 61, right associativity).

Section Machine.

Variable hw : Z -> nat -> Z -> Z.

Definition read32 (a : Z) : M Z := fun s =>
  let v := hw a (clk s) (load32 (mem s) a) in
  Some (v, Mach (mem s) (S (clk s)) (trace s ++ [Rd a v]) (log s)).

Definition write32 (a v : Z) : M unit := fun s =>
  Some (tt, Mach (mem_store_bytes (mem s) a v 4) (clk s)
                 (trace s ++ [Wr a (Z.land v (Z.ones 32))]) (log s)).

Definition write16 (a v : Z) : M unit := fun s =>
  Some (tt, Mach (mem_store_bytes (mem s) a v 2) (clk s)
                 (trace s ++ [Wr16 a (Z.land v (Z.ones 16))]) (log s)).

Definition memset (a c n : Z) : M unit := fun s =>
  Some (tt, Mach (mem_fill (mem s) a c n) (clk s) (trace s ++ [Fill a c n]) (log s)).

Definition kprintf (msg : string) : M unit := fun s =>
  Some (tt, Mach (mem s) (clk s) (trace s) (log s ++ [msg])).

End Machine.

(** Reads return the stored value. *)
Definition hw_plain : Z -> nat -> Z -> Z := fun _ _ v => v.

(** ** kprintf formatting of [%u] *)

Definition digit (d : Z) : Ascii.ascii := Ascii.ascii_of_nat (48 + Z.to_nat d).

Fixpoint utoa_fuel (fuel : nat) (n : Z) : string :=
  match fuel with
  | O => EmptyString
  | S f => if n <? 10 then String (digit n) EmptyString
           else utoa_fuel f (n / 10) ++ String (digit (n mod 10)) EmptyString
  end.

(** Decimal text of an unsigned 32-bit value (at most 10 digits). *)
Definition utoa (n : Z) : string := utoa_fuel 10 n.

Definition nl : string := String (Ascii.ascii_of_nat 10) EmptyString.

Section Driver.

Variable hw : Z -> nat -> Z -> Z.

(** ** check_type *)

Definition sig_switch (sig : Z) : ahci_dev :=
  if sig =? SATA_SIG_ATAPI then AHCI_DEV_SATAPI
  else if sig =? SATA_SIG_SEMB then AHCI_DEV_SEMB
  else if sig =? SATA_SIG_PM then AHCI_DEV_PM
  else AHCI_DEV_SATA.

Definition check_type (port : Z) : M ahci_dev :=
  ssts <- read32 hw (port + PORT_SSTS) ;;
  let ipm := Z.land (Z.shiftr ssts 8) 0x0F in
  let det := Z.land ssts 0x0F in
  if negb (det =? HBA_PORT_DET_PRESENT) then ret AHCI_DEV_NULL
  else if negb (ipm =? HBA_PORT_IPM_ACTIVE) then ret AHCI_DEV_NULL
  else sig <- read32 hw (port + PORT_SIG) ;; ret (sig_switch sig).

(** ** probe_port *)

Definition report (dt : ahci_dev) (i : Z) : M unit :=
  match dt with
  | AHCI_DEV_SATA => kprintf ("[AHCI] SATA drive found, port = " ++ utoa i ++ nl)
  | AHCI_DEV_SATAPI => kprintf ("[AHCI] SATAPI drive found, port = " ++ utoa i ++ nl)
  | AHCI_DEV_SEMB => kprintf ("[AHCI] SEMB drive found, port = " ++ utoa i ++ nl)
  | AHCI_DEV_PM => kprintf ("[AHCI] PM drive found, port = " ++ utoa i ++ nl)
  | AHCI_DEV_NULL => ret tt
  end.

(** [for (i = 0; i < 32; i++) { if (pi & 1) {...} pi >>= 1; }], from index [i]
    with [n] iterations left. *)
Fixpoint probe_loop (n : nat) (hba i pi : Z) : M unit :=
  match n with
  | O => ret tt
  | S n' =>
      (if Z.land pi 1 =? 0 then ret tt
       else dt <- check_type (port_addr hba i) ;; report dt i) ;;;
      probe_loop n' hba (i + 1) (Z.shiftr pi 1)
  end.

Definition probe_port (hba : Z) : M unit :=
  pi <- read32 hw (hba + HBA_PI) ;;
  probe_loop 32 hba 0 pi.

(** ** start_cmd and stop_cmd

    The busy-wait loops get a fuel bound; running out of fuel is [None]. *)

Fixpoint start_wait (fuel : nat) (port : Z) : M unit :=
  match fuel with
  | O => diverge
  | S f =>
      c <- read32 hw (port + PORT_CMD) ;;
      if negb (Z.land c (Z.shiftl 1 15) =? 0) then start_wait f port else ret tt
  end.

Definition start_cmd (fuel : nat) (port : Z) : M unit :=
  start_wait fuel port ;;;
  c <- read32 hw (port + PORT_CMD) ;;
  write32 (port + PORT_CMD) (Z.lor c (Z.shiftl 1 4)) ;;;
  c <- read32 hw (port + PORT_CMD) ;;
  write32 (port + PORT_CMD) (Z.lor c 1).

Fixpoint stop_wait (fuel : nat) (port : Z) : M unit :=
  match fuel with
  | O => diverge
  | S f =>
      c <- read32 hw (port + PORT_CMD) ;;
      if negb (Z.land c (Z.shiftl 1 14) =? 0) then stop_wait f port else
      c <- read32 hw (port + PORT_CMD) ;;
      if negb (Z.land c (Z.shiftl 1 15) =? 0) then stop_wait f port else
      ret tt
  end.

Definition stop_cmd (fuel : nat) (port : Z) : M unit :=
  c <- read32 hw (port + PORT_CMD) ;;
  write32 (port + PORT_CMD) (Z.land c (Z.lnot 1)) ;;;
  c <- read32 hw (port + PORT_CMD) ;;
  write32 (port + PORT_CMD) (Z.land c (Z.lnot (Z.shiftl 1 4))) ;;;
  stop_wait fuel port.

(** ** port_rebase *)

(** Command-list and FIS base addresses assigned to port [i]. *)
Definition clb_value (i : Z) : Z := AHCI_BASE + Z.shiftl i 10.
Definition fb_value (i : Z) : Z := AHCI_BASE + Z.shiftl 32 10 + Z.shiftl i 8.

(** [AHCI_BASE + (40 << 10) + (i << 13) + (i << 8)] where [i] is the
    counter of the inner loop over the command headers: its declaration
    [for (uint8_t i = 0; ...)] shadows the port counter. *)
Definition cmd_table_addr (i : Z) : Z :=
  AHCI_BASE + Z.shiftl 40 10 + Z.shiftl i 13 + Z.shiftl i 8.

Fixpoint cmd_header_loop (n : nat) (cmd_header i : Z) : M unit :=
  match n with
  | O => ret tt
  | S n' =>
      let h := cmd_header + i * CMD_HEADER_SIZE in
      write16 (h + HDR_PRDTL) 8 ;;;
      write32 (h + HDR_CTBA) (cmd_table_addr i) ;;;
      write32 (h + HDR_CTBAU) 0 ;;;
      memset (h + HDR_CTBA) 0 256 ;;;
      cmd_header_loop n' cmd_header (i + 1)
  end.

Definition rebase_port (fuel : nat) (hba i : Z) : M unit :=
  let port := port_addr hba i in
  stop_cmd fuel port ;;;
  write32 (port + PORT_CLB) (clb_value i) ;;;
  write32 (port + PORT_CLBU) 0 ;;;
  memset (port + PORT_CLB) 0 1024 ;;;
  write32 (port + PORT_FB) (fb_value i) ;;;
  write32 (port + PORT_FBU) 0 ;;;
  memset (port + PORT_FB) 0 256 ;;;
  clb <- read32 hw (port + PORT_CLB) ;;
  cmd_header_loop 32 clb 0 ;;;
  start_cmd fuel port.

Fixpoint rebase_loop (fuel n : nat) (hba i pi : Z) : M unit :=
  match n with
  | O => ret tt
  | S n' =>
      (if Z.land pi 1 =? 0 then ret tt else rebase_port fuel hba i) ;;;
      rebase_loop fuel n' hba (i + 1) (Z.shiftr pi 1)
  end.

Definition port_rebase (fuel : nat) (hba : Z) : M unit :=
  pi <- read32 hw (hba + HBA_PI) ;;
  rebase_loop fuel 32 hba 0 pi.

End Driver.

(** ** Concrete adapters *)

Definition zero_mem : memory := fun _ => 0.

Definition hba0 : Z := 0xFEBF0000.

Definition boot (m : memory) : mach := Mach m 0 [] [].

(** An adapter at [hba0] with the given ports-implemented mask and all
    other registers zero. *)
Definition adapter_pi (pi : Z) : memory :=
  mem_store_bytes zero_mem (hba0 + HBA_PI) pi 4.

(** Port [i] of that adapter with the given status and signature words. *)
Definition with_port (m : memory) (i ssts sig : Z) : memory :=
  mem_store_bytes (mem_store_bytes m (port_addr hba0 i + PORT_SSTS) ssts 4)
                  (port_addr hba0 i + PORT_SIG) sig 4.

(** The end-to-end scenario: mask 0b101, SATA on port 0, SATAPI on port 2. *)
Definition scenario_mem : memory :=
  with_port (with_port (adapter_pi 5) 0 0x113 SATA_SIG_ATA) 2 0x113 SATA_SIG_ATAPI.

Definition final_log (r : option (unit * mach)) : list string :=
  match r with Some (_, s) => log s | None => [] end.

(** ** The spec's vocabulary *)

(** Device-detection (bits 0-3) and power-management (bits 8-11) fields. *)
Definition ssts_det (ssts : Z) : Z := Z.land ssts 0x0F.
Definition ssts_ipm (ssts : Z) : Z := Z.land (Z.shiftr ssts 8) 0x0F.

(** The classification table of the spec (section 4.1). *)
Definition classify_spec (det ipm sig : Z) : ahci_dev :=
  if negb (det =? 3) || negb (ipm =? 1) then AHCI_DEV_NULL
  else if sig =? SATA_SIG_ATAPI then AHCI_DEV_SATAPI
  else if sig =? SATA_SIG_SEMB then AHCI_DEV_SEMB
  else if sig =? SATA_SIG_PM then AHCI_DEV_PM
  else AHCI_DEV_SATA.

(** Classification of the port block at [port] in memory [m]. *)
Definition port_class (m : memory) (port : Z) : ahci_dev :=
  let ssts := load32 m (port + PORT_SSTS) in
  classify_spec (ssts_det ssts) (ssts_ipm ssts) (load32 m (port + PORT_SIG)).

(** The register reads classifying the port block at [port]. *)
Definition check_reads (m : memory) (port : Z) : list event :=
  let ssts := load32 m (port + PORT_SSTS) in
  Rd (port + PORT_SSTS) ssts ::
  (if (ssts_det ssts =? 3) && (ssts_ipm ssts =? 1)
   then [Rd (port + PORT_SIG) (load32 m (port + PORT_SIG))] else []).

Definition dev_name (d : ahci_dev) : string :=
  match d with
  | AHCI_DEV_NULL => "none"%string | AHCI_DEV_SATA => "SATA"%string
  | AHCI_DEV_SEMB => "SEMB"%string | AHCI_DEV_PM => "PM"%string
  | AHCI_DEV_SATAPI => "SATAPI"%string
  end.

(** One line naming type and port index, none for an absent device. *)
Definition found_msgs (d : ahci_dev) (i : Z) : list string :=
  match d with
  | AHCI_DEV_NULL => []
  | _ => [("[AHCI] " ++ dev_name d ++ " drive found, port = " ++ utoa i ++ nl)%string]
  end.

(** Bit positions set in a ports-implemented mask, ascending. *)
Definition implemented_ports (pi : Z) : list Z :=
  filter (fun j => Z.testbit pi j) (map Z.of_nat (seq 0 32)).

(** A read of a status or signature register of one of the 32 ports. *)
Definition status_read (hba : Z) (e : event) : Prop :=
  exists j v, 0 <= j < 32 /\
    (e = Rd (port_addr hba j + PORT_SSTS) v \/ e = Rd (port_addr hba j + PORT_SIG) v).

(** ** Bit lemmas *)

Lemma land_1_eqb (x : Z) : (Z.land x 1 =? 0) = negb (Z.testbit x 0).
Proof.
  change 1 with (Z.ones 1). rewrite Z.land_ones by lia.
  rewrite Z.bit0_odd, Zmod_odd. destruct (Z.odd x); reflexivity.
Qed.

Lemma land_pow2_eqb (c n : Z) : 0 <= n ->
  (Z.land c (Z.shiftl 1 n) =? 0) = negb (Z.testbit c n).
Proof.
  intros Hn. rewrite Z.shiftl_1_l.
  destruct (Z.testbit c n) eqn:E; cbn.
  - apply Z.eqb_neq. intros H0.
    assert (Z.testbit (Z.land c (2 ^ n)) n = false) as Hb by (rewrite H0; apply Z.bits_0).
    rewrite Z.land_spec, E, Z.pow2_bits_true in Hb by lia. discriminate.
  - apply Z.eqb_eq. apply Z.bits_inj'. intros m Hm.
    rewrite Z.land_spec, Z.bits_0, Z.pow2_bits_eqb by lia.
    destruct (Z.eqb_spec n m); subst; [rewrite E; reflexivity|apply andb_false_r].
Qed.

Lemma shiftr_bit0 (pi : Z) (k : nat) :
  Z.testbit (Z.shiftr pi (Z.of_nat k)) 0 = Z.testbit pi (Z.of_nat k).
Proof. rewrite Z.shiftr_spec by lia. reflexivity. Qed.

Lemma shiftr_succ (pi : Z) (k : nat) :
  Z.shiftr (Z.shiftr pi (Z.of_nat k)) 1 = Z.shiftr pi (Z.of_nat (S k)).
Proof. rewrite Z.shiftr_shiftr by lia. f_equal. lia. Qed.

(** ** check_type, report and probe_port on a plain register file *)

Arguments load32 : simpl never.

Lemma check_type_plain (port : Z) (m : memory) (c : nat) (tr : list event) (lg : list string) :
  exists c', check_type hw_plain port (Mach m c tr lg) =
    Some (port_class m port, Mach m c' (tr ++ check_reads m port) lg).
Proof.
  unfold check_type, port_class, check_reads, classify_spec, bind, read32, ret, hw_plain.
  unfold ssts_det, ssts_ipm, HBA_PORT_DET_PRESENT, HBA_PORT_IPM_ACTIVE.
  cbv beta iota zeta delta [mem clk trace log].
  destruct (Z.land (load32 m (port + PORT_SSTS)) 15 =? 3);
    cbv beta iota delta [negb orb andb]; [|eexists; reflexivity].
  destruct (Z.land (Z.shiftr (load32 m (port + PORT_SSTS)) 8) 15 =? 1);
    cbv beta iota delta [negb orb andb]; [|eexists; reflexivity].
  eexists. rewrite <- app_assoc. reflexivity.
Qed.

Lemma report_log (d : ahci_dev) (i : Z) (m : memory) (c : nat)
    (tr : list event) (lg : list string) :
  report d i (Mach m c tr lg) = Some (tt, Mach m c tr (lg ++ found_msgs d i)).
Proof. destruct d; cbn; try reflexivity. rewrite app_nil_r. reflexivity. Qed.

Lemma probe_loop_plain (hba pi0 : Z) (n k : nat) (m : memory) (c : nat)
    (tr : list event) (lg : list string) :
  let ports := filter (fun j => Z.testbit pi0 j) (map Z.of_nat (seq k n)) in
  exists c', probe_loop hw_plain n hba (Z.of_nat k) (Z.shiftr pi0 (Z.of_nat k)) (Mach m c tr lg) =
    Some (tt, Mach m c' (tr ++ flat_map (fun j => check_reads m (port_addr hba j)) ports)
                   (lg ++ flat_map (fun j => found_msgs (port_class m (port_addr hba j)) j) ports)).
Proof.
  revert k c tr lg. induction n as [|n IH]; intros k c tr lg;
    cbn [probe_loop seq map filter flat_map].
  - rewrite !app_nil_r. exists c. reflexivity.
  - rewrite land_1_eqb, shiftr_bit0. unfold bind.
    destruct (Z.testbit pi0 (Z.of_nat k)); cbv beta iota delta [negb ret];
      cbn [flat_map].
    + destruct (check_type_plain (port_addr hba (Z.of_nat k)) m c tr lg) as [c1 ->].
      rewrite report_log, shiftr_succ.
      replace (Z.of_nat k + 1) with (Z.of_nat (S k)) by lia.
      destruct (IH (S k) c1 (tr ++ check_reads m (port_addr hba (Z.of_nat k)))
                   (lg ++ found_msgs (port_class m (port_addr hba (Z.of_nat k))) (Z.of_nat k)))
        as [c2 ->].
      rewrite <- !app_assoc. eauto.
    + rewrite shiftr_succ. replace (Z.of_nat k + 1) with (Z.of_nat (S k)) by lia.
      apply IH.
Qed.

Ltac case_if :=
  match goal with |- context [if ?b then _ else _] => destruct b end.

Lemma check_type_frame (hw : Z -> nat -> Z -> Z) (port : Z) (s : mach) :
  exists r s', check_type hw port s = Some (r, s') /\ mem s' = mem s /\ log s' = log s /\
    exists tr, trace s' = trace s ++ tr /\
      Forall (fun e => exists v, e = Rd (port + PORT_SSTS) v \/ e = Rd (port + PORT_SIG) v) tr.
Proof.
  destruct s as [m c tr lg].
  unfold check_type, bind, read32, ret.
  cbv beta iota zeta delta [mem clk trace log].
  case_if; cbv beta iota.
  - do 2 eexists; split; [reflexivity|]. cbn. repeat split.
    eexists; split; [reflexivity|]. repeat constructor. eauto.
  - case_if; cbv beta iota.
    + do 2 eexists; split; [reflexivity|]. cbn. repeat split.
      eexists; split; [reflexivity|]. repeat constructor. eauto.
    + do 2 eexists; split; [reflexivity|]. cbn. repeat split.
      eexists; split; [rewrite <- app_assoc; reflexivity|]. repeat constructor; eauto.
Qed.

Lemma probe_loop_frame (hw : Z -> nat -> Z -> Z) (hba : Z) (n k : nat) (pi : Z) (s : mach) :
  exists s', probe_loop hw n hba (Z.of_nat k) pi s = Some (tt, s') /\ mem s' = mem s /\
    exists tr, trace s' = trace s ++ tr /\
      Forall (fun e => exists j v, Z.of_nat k <= j < Z.of_nat k + Z.of_nat n /\
                (e = Rd (port_addr hba j + PORT_SSTS) v \/ e = Rd (port_addr hba j + PORT_SIG) v)) tr.
Proof.
  revert k pi s. induction n as [|n IH]; intros k pi s; cbn [probe_loop].
  - exists s. repeat split. exists []. rewrite app_nil_r. split; [reflexivity|constructor].
  - unfold bind. replace (Z.of_nat k + 1) with (Z.of_nat (S k)) by lia.
    case_if; cbv beta iota delta [ret].
    + destruct (IH (S k) (Z.shiftr pi 1) s) as (s' & -> & Hm & tr & Ht & Hf).
      exists s'. repeat split; [assumption|]. exists tr. split; [assumption|].
      eapply Forall_impl; [|exact Hf]. intros e (j & v & Hj & He). exists j, v. split; [lia|exact He].
    + destruct (check_type_frame hw (port_addr hba (Z.of_nat k)) s)
        as (r & s1 & -> & Hm1 & _ & tr1 & Ht1 & Hf1).
      destruct s1 as [m1 c1 trr1 lg1]. rewrite report_log.
      destruct (IH (S k) (Z.shiftr pi 1) (Mach m1 c1 trr1 (lg1 ++ found_msgs r (Z.of_nat k))))
        as (s' & -> & Hm & tr & Ht & Hf).
      exists s'. cbn [mem trace log clk] in *. split; [reflexivity|]. split; [congruence|].
      exists (tr1 ++ tr). split; [rewrite Ht, Ht1, app_assoc; reflexivity|].
      apply Forall_app; split.
      * eapply Forall_impl; [|exact Hf1]. intros e (v & He). exists (Z.of_nat k), v. split; [lia|exact He].
      * eapply Forall_impl; [|exact Hf]. intros e (j & v & Hj & He). exists j, v. split; [lia|exact He].
Qed.

(** * Claims *)

(** C4: [check_type] is a pure function of the detection field (bits 0-3),
    the power-management field (bits 8-11) and the signature: it returns
    [AHCI_DEV_NULL] whenever detection is not 3 or power is not 1, whatever
    the signature; otherwise SATAPI, SEMB or PM exactly when the signature
    is the matching constant and SATA for every other signature, the plain
    SATA constant included.  It changes neither memory nor the log. *)
Theorem check_type_classifies (port : Z) (s : mach) :
  let ssts := load32 (mem s) (port + PORT_SSTS) in
  let det := ssts_det ssts in
  let ipm := ssts_ipm ssts in
  let sig := load32 (mem s) (port + PORT_SIG) in
  exists r s', check_type hw_plain port s = Some (r, s') /\
    r = classify_spec det ipm sig /\
    (det <> 3 \/ ipm <> 1 -> r = AHCI_DEV_NULL) /\
    (det = 3 -> ipm = 1 ->
       (r = AHCI_DEV_SATAPI <-> sig = SATA_SIG_ATAPI) /\
       (r = AHCI_DEV_SEMB <-> sig = SATA_SIG_SEMB) /\
       (r = AHCI_DEV_PM <-> sig = SATA_SIG_PM) /\
       (r = AHCI_DEV_SATA <->
          sig <> SATA_SIG_ATAPI /\ sig <> SATA_SIG_SEMB /\ sig <> SATA_SIG_PM)) /\
    mem s' = mem s /\ log s' = log s.
Proof.
  cbv zeta. destruct s as [m c tr lg].
  destruct (check_type_plain port m c tr lg) as [c' E]. rewrite E.
  do 2 eexists. split; [reflexivity|]. split; [reflexivity|].
  unfold port_class. cbn [mem].
  generalize (ssts_det (load32 m (port + PORT_SSTS))) as det,
    (ssts_ipm (load32 m (port + PORT_SSTS))) as ipm, (load32 m (port + PORT_SIG)) as sig.
  intros det ipm sig. unfold classify_spec. split; [|split; [|split; reflexivity]].
  - intros [H|H]; apply Z.eqb_neq in H; rewrite H; [reflexivity|].
    rewrite orb_true_r. reflexivity.
  - intros -> ->. cbn [Z.eqb negb orb].
    destruct (Z.eqb_spec sig SATA_SIG_ATAPI) as [->|N1];
      [repeat split; try discriminate; try reflexivity; intuition|].
    destruct (Z.eqb_spec sig SATA_SIG_SEMB) as [->|N2];
      [repeat split; try discriminate; try reflexivity; intuition|].
    destruct (Z.eqb_spec sig SATA_SIG_PM) as [->|N3];
      [repeat split; try discriminate; try reflexivity; intuition|].
    repeat split; try discriminate; intuition.
Qed.

(** C5: for every ports-implemented mask, [probe_port] classifies exactly
    the ports whose bit is set, in ascending order (the only register
    accesses after reading the mask are the reads [check_type] makes for
    those ports), and logs one line naming type and index for each of
    them that is not absent; an absent one adds nothing to the log. *)
Theorem probe_port_visits_implemented (hba : Z) (s : mach) :
  let pi := load32 (mem s) (hba + HBA_PI) in
  let ports := implemented_ports pi in
  exists s', probe_port hw_plain hba s = Some (tt, s') /\ mem s' = mem s /\
    trace s' = trace s ++ Rd (hba + HBA_PI) pi ::
                 flat_map (fun j => check_reads (mem s) (port_addr hba j)) ports /\
    log s' = log s ++ flat_map (fun j => found_msgs (port_class (mem s) (port_addr hba j)) j) ports.
Proof.
  cbv zeta. destruct s as [m c tr lg].
  unfold probe_port, bind, read32. cbv beta iota zeta delta [mem clk trace log].
  change (hw_plain (hba + HBA_PI) c ?v) with v.
  destruct (probe_loop_plain hba (load32 m (hba + HBA_PI)) 32 0 m (S c)
              (tr ++ [Rd (hba + HBA_PI) (load32 m (hba + HBA_PI))]) lg) as [c' E].
  change (Z.of_nat 0) with 0 in E. rewrite Z.shiftr_0_r in E. rewrite E.
  eexists. split; [reflexivity|]. cbn [mem trace log].
  split; [reflexivity|]. rewrite <- app_assoc. unfold implemented_ports. split; reflexivity.
Qed.

(** C9: [probe_port] writes nothing: whatever the adapter's registers
    return, it reads the ports-implemented register once, then only status
    and signature registers of ports, and leaves memory (registers and
    scratch) unchanged; it only appends to the log. *)
Theorem probe_port_reads_only (hw : Z -> nat -> Z -> Z) (hba : Z) (s : mach) :
  exists s', probe_port hw hba s = Some (tt, s') /\ mem s' = mem s /\
    exists pi rest, trace s' = trace s ++ Rd (hba + HBA_PI) pi :: rest /\
      Forall (status_read hba) rest /\
      Forall (fun e => forall v, e <> Rd (hba + HBA_PI) v) rest.
Proof.
  destruct s as [m c tr lg].
  unfold probe_port, bind, read32. cbv beta iota zeta delta [mem clk trace log].
  destruct (probe_loop_frame hw hba 32 0 (hw (hba + HBA_PI) c (load32 m (hba + HBA_PI)))
              (Mach m (S c) (tr ++ [Rd (hba + HBA_PI) (hw (hba + HBA_PI) c (load32 m (hba + HBA_PI)))]) lg))
    as (s' & E & Hm & rest & Ht & Hf).
  change (Z.of_nat 0) with 0 in E. rewrite E. exists s'. split; [reflexivity|].
  destruct s' as [m' c' tr' lg']. cbn [mem trace] in Hm, Ht. cbv beta iota.
  split; [exact Hm|].
  exists (hw (hba + HBA_PI) c (load32 m (hba + HBA_PI))), rest.
  rewrite Ht. rewrite <- app_assoc. split; [reflexivity|].
  split; eapply Forall_impl; try exact Hf.
  - intros e (j & v & Hj & He). exists j, v. split; [lia|exact He].
  - intros e (j & v & Hj & [He|He]) v' ->; injection He;
      unfold port_addr, HBA_PI, HBA_PORTS, HBA_PORT_SIZE, PORT_SSTS, PORT_SIG; lia.
Qed.

(** C8: with mask 0b101, port 0 showing detection 3, power 1 and the SATA
    signature and port 2 detection 3, power 1 and the SATAPI signature,
    [probe_port] logs exactly "SATA drive found, port = 0" and then
    "SATAPI drive found, port = 2" (each with kprintf's "[AHCI] " tag and
    newline) and nothing for any other port. *)
Theorem probe_port_scenario (hba : Z) (s : mach)
    (Hpi : load32 (mem s) (hba + HBA_PI) = 5)
    (Hdet0 : ssts_det (load32 (mem s) (port_addr hba 0 + PORT_SSTS)) = 3)
    (Hipm0 : ssts_ipm (load32 (mem s) (port_addr hba 0 + PORT_SSTS)) = 1)
    (Hsig0 : load32 (mem s) (port_addr hba 0 + PORT_SIG) = SATA_SIG_ATA)
    (Hdet2 : ssts_det (load32 (mem s) (port_addr hba 2 + PORT_SSTS)) = 3)
    (Hipm2 : ssts_ipm (load32 (mem s) (port_addr hba 2 + PORT_SSTS)) = 1)
    (Hsig2 : load32 (mem s) (port_addr hba 2 + PORT_SIG) = SATA_SIG_ATAPI) :
  exists s', probe_port hw_plain hba s = Some (tt, s') /\
    log s' = log s ++ map (fun msg => ("[AHCI] " ++ msg ++ nl)%string)
                        ["SATA drive found, port = 0"%string; "SATAPI drive found, port = 2"%string].
Proof.
  destruct s as [m c tr lg]. cbn [mem] in *.
  unfold probe_port, bind, read32. cbv beta iota zeta delta [mem clk trace log].
  change (hw_plain (hba + HBA_PI) c ?v) with v.
  destruct (probe_loop_plain hba (load32 m (hba + HBA_PI)) 32 0 m (S c)
              (tr ++ [Rd (hba + HBA_PI) (load32 m (hba + HBA_PI))]) lg) as [c' E].
  change (Z.of_nat 0) with 0 in E. rewrite Z.shiftr_0_r in E. rewrite E. eexists. split; [reflexivity|]. cbn [log].
  rewrite Hpi. f_equal.
  replace (filter (fun j => Z.testbit 5 j) (map Z.of_nat (seq 0 32))) with [0; 2] by reflexivity.
  cbn [flat_map]. unfold port_class, classify_spec.
  rewrite Hdet0, Hipm0, Hsig0, Hdet2, Hipm2, Hsig2. reflexivity.
Qed.

Lemma probe_port_scenario_witness :
  exists s', probe_port hw_plain hba0 (boot scenario_mem) = Some (tt, s') /\
    log s' = log (boot scenario_mem) ++
      map (fun msg => ("[AHCI] " ++ msg ++ nl)%string)
          ["SATA drive found, port = 0"%string; "SATAPI drive found, port = 2"%string].
Proof.
  apply (probe_port_scenario hba0 (boot scenario_mem)); vm_compute; reflexivity.
Defined.

(** ** Engine status bits of the command register

    A register model for C6 and C7: the hardware owns FR (bit 14) and CR
    (bit 15) of the command register at [cmd_addr]; FR reads as set for the
    first [t_fr] reads and clear afterwards, CR likewise with [t_cr]: the
    engine, once told to stop, clears both after a bounded number of polls
    and they stay clear. *)
Definition hw_engine (cmd_addr : Z) (t_fr t_cr : nat) : Z -> nat -> Z -> Z :=
  fun a n v =>
    if a =? cmd_addr then
      (if (n <? t_fr)%nat then Z.setbit else Z.clearbit)
        ((if (n <? t_cr)%nat then Z.setbit else Z.clearbit) v 15) 14
    else v.

Lemma hw_engine_fr (ca : Z) (t_fr t_cr n : nat) (v : Z) :
  Z.testbit (hw_engine ca t_fr t_cr ca n v) 14 = (n <? t_fr)%nat.
Proof.
  unfold hw_engine. rewrite Z.eqb_refl.
  destruct (n <? t_fr)%nat; [apply Z.setbit_eq|apply Z.clearbit_eq]; lia.
Qed.

Lemma hw_engine_cr (ca : Z) (t_fr t_cr n : nat) (v : Z) :
  Z.testbit (hw_engine ca t_fr t_cr ca n v) 15 = (n <? t_cr)%nat.
Proof.
  unfold hw_engine. rewrite Z.eqb_refl.
  destruct (n <? t_fr)%nat;
    [rewrite Z.setbit_neq by lia|rewrite Z.clearbit_neq by lia];
    (destruct (n <? t_cr)%nat; [apply Z.setbit_eq|apply Z.clearbit_eq]; lia).
Qed.

Section Engine.

Variables (port : Z) (t_fr t_cr : nat).

Let a := port + PORT_CMD.
Let hw := hw_engine a t_fr t_cr.

Lemma stop_wait_clear (f : nat) (s s' : mach) :
  stop_wait hw f port s = Some (tt, s') ->
  exists pre v, trace s' = pre ++ [Rd a v] /\
    Z.testbit v 14 = false /\ Z.testbit v 15 = false.
Proof.
  revert s. induction f as [|f IH]; intros [m c tr lg] H; [discriminate|].
  cbn [stop_wait] in H. unfold bind, read32, ret in H.
  cbv beta iota zeta delta [mem clk trace log] in H.
  fold a in H. fold hw in H.
  rewrite land_pow2_eqb in H by lia. unfold hw in H. rewrite hw_engine_fr, negb_involutive in H.
  destruct (c <? t_fr)%nat eqn:Efr; [exact (IH _ H)|].
  rewrite land_pow2_eqb in H by lia. rewrite hw_engine_cr, negb_involutive in H.
  destruct (S c <? t_cr)%nat eqn:Ecr; [exact (IH _ H)|].
  injection H as <-. cbn [trace].
  eexists _, _. split; [reflexivity|].
  rewrite hw_engine_fr, hw_engine_cr, Ecr. split; [|reflexivity].
  apply Nat.ltb_ge in Efr. apply Nat.ltb_ge. lia.
Qed.

Lemma stop_wait_terminates (f : nat) (s : mach) :
  ((t_fr - clk s) + (t_cr - clk s) < f)%nat ->
  exists s', stop_wait hw f port s = Some (tt, s').
Proof.
  revert s. induction f as [|f IH]; intros [m c tr lg] Hf; cbn [clk] in Hf; [lia|].
  cbn [stop_wait]. unfold bind, read32, ret.
  cbv beta iota zeta delta [mem clk trace log].
  fold a. fold hw.
  rewrite land_pow2_eqb by lia. unfold hw. rewrite hw_engine_fr, negb_involutive.
  destruct (c <? t_fr)%nat eqn:Efr.
  - apply IH. cbn [clk]. apply Nat.ltb_lt in Efr. lia.
  - rewrite land_pow2_eqb by lia. rewrite hw_engine_cr, negb_involutive.
    destruct (S c <? t_cr)%nat eqn:Ecr.
    + apply IH. cbn [clk]. apply Nat.ltb_ge in Efr. apply Nat.ltb_lt in Ecr. lia.
    + eexists. reflexivity.
Qed.

Lemma start_wait_clear (f : nat) (s s' : mach) :
  start_wait hw f port s = Some (tt, s') ->
  exists pre v0, trace s' = trace s ++ pre ++ [Rd a v0] /\
    Forall (fun e => exists v, e = Rd a v /\ Z.testbit v 15 = true) pre /\
    Z.testbit v0 15 = false /\ (t_cr < clk s')%nat /\ mem s' = mem s /\ log s' = log s.
Proof.
  revert s. induction f as [|f IH]; intros [m c tr lg] H; [discriminate|].
  cbn [start_wait] in H. unfold bind, read32, ret in H.
  cbv beta iota zeta delta [mem clk trace log] in H.
  fold a in H. fold hw in H.
  rewrite land_pow2_eqb in H by lia. unfold hw in H. rewrite hw_engine_cr, negb_involutive in H.
  destruct (c <? t_cr)%nat eqn:Ecr.
  - destruct (IH _ H) as (pre & v0 & Ht & Hf & Hv0 & Hc & Hm & Hl).
    cbn [trace mem log] in Ht, Hm, Hl.
    exists (Rd a (hw_engine a t_fr t_cr a c (load32 m a)) :: pre), v0.
    split; [rewrite Ht, <- app_assoc; reflexivity|].
    split; [constructor; [eexists; split; [reflexivity|rewrite hw_engine_cr; exact Ecr]|exact Hf]|].
    auto.
  - injection H as <-. cbn [trace clk mem log].
    exists [], (hw_engine a t_fr t_cr a c (load32 m a)).
    split; [reflexivity|]. split; [constructor|]. rewrite hw_engine_cr, Ecr.
    apply Nat.ltb_ge in Ecr. repeat split; lia.
Qed.

End Engine.

(** C6: in every register model where FR (bit 14) and CR (bit 15) of the
    command register clear after a bounded number of polls ([t_fr], [t_cr])
    and stay clear, [stop_cmd] returns (here within [1 + t_fr + t_cr]
    iterations of its wait loop), and whenever it returns, its last access
    is a read of the command register showing both bits clear. *)
Theorem stop_cmd_returns_idle (port : Z) (t_fr t_cr : nat) (s : mach) :
  let hw := hw_engine (port + PORT_CMD) t_fr t_cr in
  (exists s', stop_cmd hw (S (t_fr + t_cr)) port s = Some (tt, s')) /\
  (forall fuel s', stop_cmd hw fuel port s = Some (tt, s') ->
     exists pre v, trace s' = pre ++ [Rd (port + PORT_CMD) v] /\
       Z.testbit v 14 = false /\ Z.testbit v 15 = false).
Proof.
  cbv zeta. destruct s as [m c tr lg].
  unfold stop_cmd, bind, read32, write32.
  cbv beta iota zeta delta [mem clk trace log].
  split.
  - apply stop_wait_terminates. cbn [clk]. lia.
  - intros fuel s' H. exact (stop_wait_clear port t_fr t_cr fuel _ s' H).
Qed.

Lemma stop_cmd_returns_idle_witness :
  (exists s', stop_cmd (hw_engine (port_addr hba0 0 + PORT_CMD) 3 5) (S (3 + 5))
                (port_addr hba0 0) (boot zero_mem) = Some (tt, s')) /\
  (forall fuel s', stop_cmd (hw_engine (port_addr hba0 0 + PORT_CMD) 3 5) fuel
                     (port_addr hba0 0) (boot zero_mem) = Some (tt, s') ->
     exists pre v, trace s' = pre ++ [Rd (port_addr hba0 0 + PORT_CMD) v] /\
       Z.testbit v 14 = false /\ Z.testbit v 15 = false).
Proof.
  pose proof (stop_cmd_returns_idle (port_addr hba0 0) 3 5 (boot zero_mem)) as H.
  cbv zeta in H. exact H.
Defined.

(** C7: [start_cmd] writes the command register only after its wait loop
    has read CR (bit 15) clear, and every read from then on shows CR
    clear: its accesses are reads showing CR set, a read showing it clear,
    then read-modify-write setting FRE (bit 4), then read-modify-write
    setting ST (bit 0), in that order. *)
Theorem start_cmd_order (port : Z) (t_fr t_cr fuel : nat) (s s' : mach)
    (H : start_cmd (hw_engine (port + PORT_CMD) t_fr t_cr) fuel port s = Some (tt, s')) :
  let a := port + PORT_CMD in
  exists pre v0 v1 v2,
    trace s' = trace s ++ pre ++
      [Rd a v0; Rd a v1; Wr a (Z.land (Z.lor v1 (Z.shiftl 1 4)) (Z.ones 32));
       Rd a v2; Wr a (Z.land (Z.lor v2 1) (Z.ones 32))] /\
    Forall (fun e => exists v, e = Rd a v /\ Z.testbit v 15 = true) pre /\
    Z.testbit v0 15 = false /\ Z.testbit v1 15 = false /\ Z.testbit v2 15 = false.
Proof.
  cbv zeta. unfold start_cmd, bind in H.
  destruct (start_wait (hw_engine (port + PORT_CMD) t_fr t_cr) fuel port s)
    as [[[] [m1 c1 tr1 lg1]]|] eqn:W; [|discriminate].
  destruct (start_wait_clear port t_fr t_cr fuel s _ W) as (pre & v0 & Ht & Hf & Hv0 & Hc & _ & _).
  cbn [trace clk] in Ht, Hc.
  unfold read32, write32, ret in H. cbv beta iota zeta delta [mem clk trace log] in H.
  set (v1 := hw_engine (port + PORT_CMD) t_fr t_cr (port + PORT_CMD) c1
                (load32 m1 (port + PORT_CMD))) in H.
  set (v2 := hw_engine (port + PORT_CMD) t_fr t_cr (port + PORT_CMD) (S c1) _) in H.
  injection H as <-. cbn [trace].
  exists pre, v0, v1, v2. split.
  - rewrite Ht, <- !app_assoc. reflexivity.
  - split; [exact Hf|]. split; [exact Hv0|]. unfold v1, v2. rewrite !hw_engine_cr.
    split; apply Nat.ltb_ge; lia.
Qed.

Lemma start_cmd_order_witness :
  exists s', start_cmd (hw_engine (port_addr hba0 0 + PORT_CMD) 0 2) 5 (port_addr hba0 0)
               (boot zero_mem) = Some (tt, s') /\
  let a := port_addr hba0 0 + PORT_CMD in
  exists pre v0 v1 v2,
    trace s' = trace (boot zero_mem) ++ pre ++
      [Rd a v0; Rd a v1; Wr a (Z.land (Z.lor v1 (Z.shiftl 1 4)) (Z.ones 32));
       Rd a v2; Wr a (Z.land (Z.lor v2 1) (Z.ones 32))] /\
    Forall (fun e => exists v, e = Rd a v /\ Z.testbit v 15 = true) pre /\
    Z.testbit v0 15 = false /\ Z.testbit v1 15 = false /\ Z.testbit v2 15 = false.
Proof.
  eexists. split; [reflexivity|].
  apply (start_cmd_order (port_addr hba0 0) 0 2 5 (boot zero_mem)). reflexivity.
Defined.

(** ** port_rebase on concrete adapters

    The adapters below are idle (command registers zero, so both wait
    loops exit on their first poll) and the scratch region does not
    overlap the register block at [hba0]. *)

(** The values written that lie in the command-table area, in order. *)
Definition ctba_values (tr : list event) : list Z :=
  flat_map (fun e => match e with
                     | Wr _ v => if (AHCI_BASE + Z.shiftl 40 10 <=? v) &&
                                    (v <? AHCI_BASE + Z.shiftl 40 10 + 32 * 8448)
                                 then [v] else []
                     | _ => []
                     end) tr.

Definition slot_tables : list Z := map (fun k => cmd_table_addr (Z.of_nat k)) (seq 0 32).

(** Mask 0b1, with non-zero bytes left in port 0's scratch regions:
    in its command list (a [prdbc] byte of header 0), its FIS area and
    the command table of slot 0. *)
Definition dirty_scratch : memory :=
  mem_store8 (mem_store8 (mem_store8 (adapter_pi 1)
    (clb_value 0 + 4) 0xAA) (fb_value 0) 0x55) (cmd_table_addr 0) 0x77.

(** Mask 0b1, with port 1 (not implemented) showing a SATA signature. *)
Definition neighbour_port : memory := with_port (adapter_pi 1) 1 0 SATA_SIG_ATA.

(** The claims' post-conditions, over the memory before ([m]) and after
    ([m']) [port_rebase]. *)

Definition bases_assigned (hba : Z) (m m' : memory) : Prop :=
  forall i, 0 <= i < 32 -> Z.testbit (load32 m (hba + HBA_PI)) i = true ->
    load32 m' (port_addr hba i + PORT_CLB) = AHCI_BASE + i * 1024 /\
    load32 m' (port_addr hba i + PORT_CLBU) = 0 /\
    load32 m' (port_addr hba i + PORT_FB) = AHCI_BASE + 32 * 1024 + i * 256 /\
    load32 m' (port_addr hba i + PORT_FBU) = 0.

Definition unimplemented_untouched (hba : Z) (m m' : memory) : Prop :=
  forall j, 0 <= j < 32 -> Z.testbit (load32 m (hba + HBA_PI)) j = false ->
    forall off, 0 <= off < HBA_PORT_SIZE -> m' (port_addr hba j + off) = m (port_addr hba j + off).

(** Evaluating [port_rebase] on an idle adapter at [hba0]: a check on the
    final state, and its reading as a statement about [port_rebase]. *)
Definition after_rebase (m : memory) (P : mach -> bool) : bool :=
  match port_rebase hw_plain 1 hba0 (boot m) with
  | Some (_, s) => P s
  | None => false
  end.

Lemma after_rebase_spec (m : memory) (P : mach -> bool) :
  after_rebase m P = true ->
  exists s', port_rebase hw_plain 1 hba0 (boot m) = Some (tt, s') /\ P s' = true.
Proof.
  unfold after_rebase. destruct (port_rebase hw_plain 1 hba0 (boot m)) as [[[] s']|];
    [eauto|discriminate].
Qed.

Definition list_Z_eqb (xs ys : list Z) : bool :=
  (length xs =? length ys)%nat && forallb (fun p => fst p =? snd p) (combine xs ys).

Lemma list_Z_eqb_eq (xs ys : list Z) : list_Z_eqb xs ys = true -> xs = ys.
Proof.
  revert ys. induction xs as [|x xs IH]; intros [|y ys]; unfold list_Z_eqb; cbn;
    try discriminate; [reflexivity|].
  intros H. apply andb_true_iff in H as [Hl H]. apply andb_true_iff in H as [Hxy H].
  apply Z.eqb_eq in Hxy. subst y. f_equal. apply IH. unfold list_Z_eqb.
  rewrite Hl, H. reflexivity.
Qed.

Ltac bool_facts :=
  repeat match goal with
         | Hb : (_ && _) = true |- _ => apply andb_true_iff in Hb as [? ?]
         end.

(** C1 (evidence): with mask 0b11 the command-table addresses written into
    the headers while rebasing port 0 and while rebasing port 1 are the
    same 32 addresses: the address is computed from the header slot only,
    so the 256-byte command-table range of slot k of port 0 is the one of
    slot k of port 1. *)
Theorem port_rebase_shared_cmd_tables :
  exists s', port_rebase hw_plain 1 hba0 (boot (adapter_pi 3)) = Some (tt, s') /\
    ctba_values (trace s') = slot_tables ++ slot_tables.
Proof.
  destruct (after_rebase_spec (adapter_pi 3)
              (fun s => list_Z_eqb (ctba_values (trace s)) (slot_tables ++ slot_tables))
              ltac:(vm_compute; reflexivity)) as (s' & E & H).
  exists s'. split; [exact E|]. clear E. apply list_Z_eqb_eq, H.
Qed.

(** C2 (evidence): after [port_rebase] on an adapter with mask 0b1, bytes
    of port 0's scratch command list, FIS area and slot-0 command table
    still hold what they held before, and the [prdtl] field of header 0 of
    the command list at [AHCI_BASE] reads 0, not 8: the memsets clear the
    register block at [&port->clb] and [&port->fb] and the headers are
    written at the address read back from the cleared [clb] register. *)
Theorem port_rebase_scratch_untouched :
  exists s', port_rebase hw_plain 1 hba0 (boot dirty_scratch) = Some (tt, s') /\
    mem s' (clb_value 0 + 4) = 0xAA /\ mem s' (fb_value 0) = 0x55 /\
    mem s' (cmd_table_addr 0) = 0x77 /\
    load16 (mem s') (clb_value 0 + HDR_PRDTL) = 0.
Proof.
  destruct (after_rebase_spec dirty_scratch
              (fun s => (mem s (clb_value 0 + 4) =? 0xAA) && (mem s (fb_value 0) =? 0x55) &&
                        (mem s (cmd_table_addr 0) =? 0x77) &&
                        (load16 (mem s) (clb_value 0 + HDR_PRDTL) =? 0))
              ltac:(vm_compute; reflexivity)) as (s' & E & H).
  exists s'. split; [exact E|]. clear E. bool_facts.
  repeat match goal with Hb : (_ =? _) = true |- _ => apply Z.eqb_eq in Hb end.
  auto.
Qed.

(** C3 (evidence): after [port_rebase] on an adapter with mask 0b1, the
    command-list and FIS base registers of port 0 read 0, not
    [AHCI_BASE] and [AHCI_BASE + 32K]: each is cleared by the memset that
    follows its assignment. *)
Theorem port_rebase_bases_cleared :
  exists s', port_rebase hw_plain 1 hba0 (boot (adapter_pi 1)) = Some (tt, s') /\
    load32 (mem s') (port_addr hba0 0 + PORT_CLB) = 0 /\
    load32 (mem s') (port_addr hba0 0 + PORT_FB) = 0 /\
    ~ bases_assigned hba0 (adapter_pi 1) (mem s').
Proof.
  destruct (after_rebase_spec (adapter_pi 1)
              (fun s => (load32 (mem s) (port_addr hba0 0 + PORT_CLB) =? 0) &&
                        (load32 (mem s) (port_addr hba0 0 + PORT_FB) =? 0))
              ltac:(vm_compute; reflexivity)) as (s' & E & H).
  exists s'. split; [exact E|]. clear E. bool_facts.
  repeat match goal with Hb : (_ =? _) = true |- _ => apply Z.eqb_eq in Hb end.
  split; [assumption|]. split; [assumption|].
  intros Hb. destruct (Hb 0) as [Hclb _]; [lia|vm_compute; reflexivity|].
  match goal with Hz : load32 _ (port_addr hba0 0 + PORT_CLB) = 0 |- _ => rewrite Hz in Hclb end.
  discriminate.
Qed.

(** C10 (evidence): with mask 0b1, rebasing port 0 issues a 1 KiB memset
    from [&port->clb], which covers the register blocks of ports 1 to 7:
    the signature register of port 1, not implemented, goes from the SATA
    signature to 0. *)
Theorem port_rebase_clobbers_neighbour :
  exists s', port_rebase hw_plain 1 hba0 (boot neighbour_port) = Some (tt, s') /\
    load32 neighbour_port (port_addr hba0 1 + PORT_SIG) = SATA_SIG_ATA /\
    load32 (mem s') (port_addr hba0 1 + PORT_SIG) = 0 /\
    In (Fill (port_addr hba0 0 + PORT_CLB) 0 1024) (trace s') /\
    ~ unimplemented_untouched hba0 neighbour_port (mem s').
Proof.
  destruct (after_rebase_spec neighbour_port
              (fun s => (load32 (mem s) (port_addr hba0 1 + PORT_SIG) =? 0) &&
                        (mem s (port_addr hba0 1 + PORT_SIG) =? 0) &&
                        existsb (fun e => match e with
                                          | Fill a c n => (a =? port_addr hba0 0 + PORT_CLB) &&
                                                          (c =? 0) && (n =? 1024)
                                          | _ => false
                                          end) (trace s))
              ltac:(vm_compute; reflexivity)) as (s' & E & H).
  exists s'. split; [exact E|]. clear E.
  apply andb_true_iff in H as [H12 H]. apply andb_true_iff in H12 as [H1 H2].
  split; [vm_compute; reflexivity|].
  split; [apply Z.eqb_eq; exact H1|].
  split.
  - apply existsb_exists in H as ([| | |a c n] & Hin & He); try discriminate He.
    bool_facts.
    repeat match goal with Hb : (_ =? _) = true |- _ => apply Z.eqb_eq in Hb end.
    subst. exact Hin.
  - intros Hu.
    specialize (Hu 1 ltac:(lia) ltac:(vm_compute; reflexivity) PORT_SIG ltac:(unfold PORT_SIG, HBA_PORT_SIZE; lia)).
    apply Z.eqb_eq in H2. rewrite H2 in Hu.
    vm_compute in Hu. discriminate.
Qed.
